(** * android_skip_helper_autojs.js: a shallow embedding and its properties

    The script polls the accessibility tree of an Android automation host,
    looks for clickable elements whose text, description or identifier
    contains one of a few keywords, and taps the first one it manages to tap.

    The host (tree query, click, toast, log, sleep, clock) is outside the
    script.  What the host answers is an input of the model ([host]); what
    the script asks of the host is recorded, in order, in the [trace] of the
    state.

    Choices of the model:
    - the clock and the counter are integers far below 2^53, where the
      numbers of JavaScript are exact: they are in [Z];
    - the tree query, [click()] and [bounds()] of an element and the
      coordinate tap may throw; [toast], [log], [sleep] and [auto.waitFor]
      are taken to return;
    - an element of the snapshot answers [click()] and [bounds()] the same
      way during one turn of the loop, and so does the coordinate tap at a
      given point;
    - [String.prototype.toLowerCase] belongs to the runtime, with the case
      tables of Unicode, and not to the script: the model takes it as a
      parameter ([Runtime]).  What is proved of the script holds whatever
      that function is; where a property asks something of it, the
      theorem says so in a hypothesis.  The examples run on a small
      runtime of their own ([sample_runtime]). *)

From Stdlib Require Import ZArith NArith List Bool String Ascii Lia.
From Stdlib Require Import DecimalString.
Import ListNotations.

(** ** JavaScript strings

    A JavaScript string is a sequence of UTF-16 code units.  The keyword
    table of the script holds Cyrillic words, so a byte string would not do:
    a code unit is an [N]. *)

Module JS.

Local Open Scope N_scope.

Definition jsstring := list N.

(** An ASCII literal, one code unit per character. *)
Definition lit (s : string) : jsstring :=
  map N_of_ascii (list_ascii_of_string s).

(** The code units [String.prototype.trim] removes: WhiteSpace and
    LineTerminator of ECMAScript. *)
Definition ws_units : list N :=
  [9; 10; 11; 12; 13; 32; 160; 5760;
   8192; 8193; 8194; 8195; 8196; 8197; 8198; 8199; 8200; 8201; 8202;
   8232; 8233; 8239; 8287; 12288; 65279].

Definition is_ws (c : N) : bool := existsb (N.eqb c) ws_units.

Fixpoint trimStart (s : jsstring) : jsstring :=
  match s with
  | [] => []
  | c :: s' => if is_ws c then trimStart s' else s
  end.

Definition trimEnd (s : jsstring) : jsstring := rev (trimStart (rev s)).

Definition trim (s : jsstring) : jsstring := trimEnd (trimStart s).

(** [pat] is a prefix of [s]. *)
Fixpoint startsWith (pat s : jsstring) : bool :=
  match pat, s with
  | [], _ => true
  | _ :: _, [] => false
  | p :: pat', c :: s' => (p =? c) && startsWith pat' s'
  end.

Fixpoint indexOf_from (s pat : jsstring) (i : Z) : Z :=
  if startsWith pat s then i
  else match s with
       | [] => (-1)%Z
       | _ :: s' => indexOf_from s' pat (i + 1)%Z
       end.

(** [s.indexOf(pat)]: the first position of [pat] in [s], or -1. *)
Definition indexOf (s pat : jsstring) : Z := indexOf_from s pat 0.

(** The string of an integral number, as string concatenation renders it. *)
Definition of_number (n : Z) : jsstring :=
  lit (NilEmpty.string_of_int (Z.to_int n)).

(** A possibly null string under string concatenation. *)
Definition of_nullable (o : option jsstring) : jsstring :=
  match o with
  | Some s => s
  | None => lit "null"
  end.

Definition hex_digit (d : N) : N := if d <? 10 then 48 + d else 87 + d.

(** The escapes of [JSON.stringify] inside a string. *)
Definition json_escape_unit (c : N) : jsstring :=
  if c =? 34 then [92; 34]
  else if c =? 92 then [92; 92]
  else if c =? 8 then [92; 98]
  else if c =? 12 then [92; 102]
  else if c =? 10 then [92; 110]
  else if c =? 13 then [92; 114]
  else if c =? 9 then [92; 116]
  else if c <? 32 then [92; 117; 48; 48; hex_digit (c / 16); hex_digit (c mod 16)]
  else [c].

Definition json_quote (s : jsstring) : jsstring :=
  [34] ++ flat_map json_escape_unit s ++ [34].

Fixpoint join (sep : jsstring) (l : list jsstring) : jsstring :=
  match l with
  | [] => []
  | [s] => s
  | s :: l' => s ++ sep ++ join sep l'
  end.

(** [JSON.stringify] of an array of strings. *)
Definition JSON_stringify (l : list jsstring) : jsstring :=
  [91] ++ join [44] (map json_quote l) ++ [93].

End JS.

Import JS.

Local Open Scope Z_scope.

(** ** The runtime

    [String.prototype.toLowerCase] is not modelled: it is the case
    conversion of Unicode, tables and special cases included.  The script
    and every property below are stated for an arbitrary [toLowerCase]. *)

Class Runtime := {
  toLowerCase : jsstring -> jsstring
}.

(** ** The host

    A thrown value is kept as the string that concatenation renders it to
    (the script only ever concatenates it to a message). *)

Definition exn := jsstring.

Inductive result (A : Type) : Type :=
| Ok (a : A)
| Throw (e : exn).

Arguments Ok {A} a.
Arguments Throw {A} e.

(** The rectangle [node.bounds()] returns; the script reads its centre. *)
Record Rect := { centerX : Z; centerY : Z }.

(** A clickable element of the accessibility tree, as the script sees it:
    three optional strings, what [click()] does and what [bounds()] gives. *)
Module UiObject.

Record node := {
  text : option jsstring;
  desc : option jsstring;
  id : option jsstring;
  click : result bool;
  bounds : result (option Rect)
}.

End UiObject.

Abbreviation node := UiObject.node.

(** What the host answers during one cycle of the loop: the result of the
    query [classNameMatches(/.*/).clickable(true).find()], the coordinate tap
    [click(x, y)], and the clock read by [new Date().getTime()]. *)
Module Host.

Record host := {
  find : result (list node);
  click : Z -> Z -> result bool;
  getTime : Z
}.

End Host.

Abbreviation host := Host.host.

(** The calls the script makes on the host, in the order it makes them. *)
Inductive event : Type :=
| ev_waitFor
| ev_toast (message : jsstring)
| ev_log (message : jsstring)
| ev_sleep (ms : Z)
| ev_node_click (n : node)
| ev_node_bounds (n : node)
| ev_click (x y : Z).

(** ** The script's state and its monad *)

(** The two globals of the script, and the calls made so far. *)
Record state := {
  lastToastAt : Z;
  taps : Z;
  trace : list event
}.

(** [let lastToastAt = 0; let taps = 0;] *)
Definition initial : state :=
  {| lastToastAt := 0; taps := 0; trace := [] |}.

(** A computation changes the state and returns or throws; what was done to
    the state before a throw stays done. *)
Definition M (A : Type) : Type := state -> result A * state.

Definition ret {A} (a : A) : M A := fun s => (Ok a, s).

Definition bind {A B} (c : M A) (k : A -> M B) : M B :=
  fun s =>
    match c s with
    | (Ok a, s') => k a s'
    | (Throw e, s') => (Throw e, s')
    end.

Notation "x <- c ;; k" := (bind c (fun x => k))
  (at level 61, c at next level, right associativity).
Notation "c ;; k" := (bind c (fun _ => k))
  (at level 61, right associativity).

(** [try { body } catch (e) { handler }] *)
Definition try_catch {A} (body : M A) (handler : exn -> M A) : M A :=
  fun s =>
    match body s with
    | (Ok a, s') => (Ok a, s')
    | (Throw e, s') => handler e s'
    end.

(** The outcome of a host call. *)
Definition lift {A} (r : result A) : M A := fun s => (r, s).

Definition gets {A} (f : state -> A) : M A := fun s => (Ok (f s), s).

Definition emit (e : event) : M unit :=
  fun s => (Ok tt, {| lastToastAt := lastToastAt s; taps := taps s;
                      trace := trace s ++ [e] |}).

Definition set_lastToastAt (t : Z) : M unit :=
  fun s => (Ok tt, {| lastToastAt := t; taps := taps s; trace := trace s |}).

Definition set_taps (n : Z) : M unit :=
  fun s => (Ok tt, {| lastToastAt := lastToastAt s; taps := n; trace := trace s |}).

(** The host primitives the script calls. *)
Definition toast (message : jsstring) : M unit := emit (ev_toast message).
Definition log (message : jsstring) : M unit := emit (ev_log message).
Definition sleep (ms : Z) : M unit := emit (ev_sleep ms).
Definition auto_waitFor : M unit := emit ev_waitFor.

Definition node_click (n : node) : M bool :=
  emit (ev_node_click n) ;; lift (UiObject.click n).

Definition node_bounds (n : node) : M (option Rect) :=
  emit (ev_node_bounds n) ;; lift (UiObject.bounds n).

Definition click (h : host) (x y : Z) : M bool :=
  emit (ev_click x y) ;; lift (Host.click h x y).

(** ** The script *)

Section Script.

Context {rt : Runtime}.

(** The Cyrillic entries, as UTF-16 code units. *)
Definition DEFAULT_KEYWORDS : list jsstring :=
  [ lit "skip";
    lit "skip ad";
    lit "skip ads";
    [1087; 1088; 1086; 1087; 1091; 1089; 1090; 1080; 1090; 1100]%N;
    [1079; 1072; 1082; 1088; 1099; 1090; 1100]%N;
    lit "close" ].

Definition CHECK_INTERVAL_MS : Z := 800.
Definition TOAST_INTERVAL_MS : Z := 5000.

Definition now (h : host) : M Z := ret (Host.getTime h).

Definition notifyThrottled (h : host) (message : jsstring) : M unit :=
  t <- now h ;;
  last <- gets lastToastAt ;;
  if t - last >=? TOAST_INTERVAL_MS then
    toast message ;;
    set_lastToastAt t
  else ret tt.

(** [!text] for a possibly null string: null and the empty string. *)
Definition falsy (text : option jsstring) : bool :=
  match text with
  | None => true
  | Some [] => true
  | Some (_ :: _) => false
  end.

(** The [for] loop of [hasKeyword] over the keywords not yet tried. *)
Fixpoint hasKeyword_from (low : jsstring) (keywords : list jsstring) : bool :=
  match keywords with
  | [] => false
  | k :: rest =>
      if negb (indexOf low k =? -1) then true
      else hasKeyword_from low rest
  end.

Definition hasKeyword (text : option jsstring) (keywords : list jsstring) : bool :=
  if falsy text then false
  else
    let low := toLowerCase (of_nullable text) in
    hasKeyword_from low keywords.

Definition clickNode (h : host) (n : option node) : M bool :=
  match n with
  | None => ret false
  | Some n =>
      clicked <- node_click n ;;
      if clicked then ret true
      else
        b <- node_bounds n ;;
        match b with
        | None => ret false
        | Some r => click h (centerX r) (centerY r)
        end
  end.

(** [hasKeyword(txt, keywords) || hasKeyword(desc, keywords) ||
    hasKeyword(id, keywords)] *)
Definition matched (keywords : list jsstring) (n : node) : bool :=
  hasKeyword (UiObject.text n) keywords
  || hasKeyword (UiObject.desc n) keywords
  || hasKeyword (UiObject.id n) keywords.

Definition tapped_message (n : Z) (txt dsc ident : option jsstring) : jsstring :=
  lit "Tapped candidate #" ++ of_number n
  ++ lit ": text=" ++ of_nullable txt
  ++ lit ", desc=" ++ of_nullable dsc
  ++ lit ", id=" ++ of_nullable ident.

(** The [for] loop of [findAndTap] over the elements not yet visited. *)
Fixpoint findAndTap_from (h : host) (keywords : list jsstring)
    (clickable : list node) : M bool :=
  match clickable with
  | [] => ret false
  | n :: rest =>
      let txt := UiObject.text n in
      let dsc := UiObject.desc n in
      let ident := UiObject.id n in
      if negb (matched keywords n) then findAndTap_from h keywords rest
      else
        tapped <- clickNode h (Some n) ;;
        if tapped then
          t <- gets taps ;;
          set_taps (t + 1) ;;
          t <- gets taps ;;
          log (tapped_message t txt dsc ident) ;;
          ret true
        else findAndTap_from h keywords rest
  end.

Definition findAndTap (h : host) (keywords : list jsstring) : M bool :=
  clickable <- lift (Host.find h) ;;
  findAndTap_from h keywords clickable.

Definition normalizeKeywords (l : list jsstring) : list jsstring :=
  filter (fun x => (0 <? Z.of_nat (List.length x)))
         (map (fun x => trim (toLowerCase x)) l).

(** The part of [main] before the loop. *)
Definition main_start : M (list jsstring) :=
  auto_waitFor ;;
  let keywords := normalizeKeywords DEFAULT_KEYWORDS in
  toast (lit "Skip helper started") ;;
  log (lit "Keywords: " ++ JSON_stringify keywords) ;;
  log (lit "Press volume up in Auto.js to stop script") ;;
  ret keywords.

(** One turn of the [while (true)] loop. *)
Definition main_cycle (keywords : list jsstring) (h : host) : M unit :=
  try_catch
    (pressed <- findAndTap h keywords ;;
     if negb pressed then notifyThrottled h (lit "Skip helper: no matching button")
     else ret tt)
    (fun e =>
       log (lit "Warning: " ++ e) ;;
       notifyThrottled h (lit "Skip helper warning: " ++ e)) ;;
  sleep CHECK_INTERVAL_MS.

(** The loop never leaves by itself: its first turns are run against the
    answers the host gives in each of them.  A throw that left a turn would
    end the loop; the turns after it would not run. *)
Fixpoint main_loop (keywords : list jsstring) (hs : list host) : M unit :=
  match hs with
  | [] => ret tt
  | h :: hs' => main_cycle keywords h ;; main_loop keywords hs'
  end.

Definition main (hs : list host) : M unit :=
  keywords <- main_start ;;
  main_loop keywords hs.

(** ** The vocabulary of the properties *)

(** A keyword list as section 3 of the specification describes it: every
    keyword is lower-case, trimmed and not empty. *)
Definition normalized (keywords : list jsstring) : Prop :=
  Forall (fun k => toLowerCase k = k /\ trim k = k /\ k <> []) keywords.

(** [k] occurs in [s] as it is written. *)
Definition occurs_in (k s : jsstring) : Prop :=
  exists pre post, s = pre ++ k ++ post.

(** [k] occurs in [text] when case is ignored: some part of [text] differs
    from [k] by the case of its letters only. *)
Definition occurs_ignoring_case (k text : jsstring) : Prop :=
  exists pre mid post,
    text = pre ++ mid ++ post /\ toLowerCase mid = toLowerCase k.

(** The first code unit of [s], if any, is not white space. *)
Definition starts_black (s : jsstring) : Prop :=
  match s with
  | [] => True
  | c :: _ => is_ws c = false
  end.

(** The state after the host calls [evs] were made. *)
Definition record_calls (s : state) (evs : list event) : state :=
  {| lastToastAt := lastToastAt s; taps := taps s; trace := trace s ++ evs |}.

(** What [clickNode(node)] returns.  The script's globals are not read by
    [clickNode], so any state gives the same answer. *)
Definition tap_outcome (h : host) (n : node) : result bool :=
  fst (clickNode h (Some n) initial).

(** The elements whose [click()] was called, in the order of the calls. *)
Fixpoint clicked_nodes (evs : list event) : list node :=
  match evs with
  | [] => []
  | ev_node_click n :: rest => n :: clicked_nodes rest
  | _ :: rest => clicked_nodes rest
  end.

(** Every turn of the loop over [hs], started in [s], ends with
    [findAndTap] returning true: no turn reaches [notifyThrottled]. *)
Fixpoint all_pressed (keywords : list jsstring) (hs : list host) (s : state) : Prop :=
  match hs with
  | [] => True
  | h :: hs' =>
      fst (findAndTap h keywords s) = Ok true
      /\ all_pressed keywords hs' (snd (main_cycle keywords h s))
  end.

(** The points at which a coordinate tap [click(x, y)] was issued, in the
    order of the calls. *)
Fixpoint tapped_points (evs : list event) : list (Z * Z) :=
  match evs with
  | [] => []
  | ev_click x y :: rest => (x, y) :: tapped_points rest
  | _ :: rest => tapped_points rest
  end.

(** [p] is the point of the fall-back tap on [n]: [click()] of [n] returns
    false and [p] is the centre of its bounds. *)
Definition fallback_of (n : node) (p : Z * Z) : Prop :=
  UiObject.click n = Ok false
  /\ exists r, UiObject.bounds n = Ok (Some r) /\ p = (centerX r, centerY r).

Definition is_toast (e : event) : bool :=
  match e with
  | ev_toast _ => true
  | _ => false
  end.

Definition is_sleep (e : event) : bool :=
  match e with
  | ev_sleep _ => true
  | _ => false
  end.

(** The number of toasts in a record of host calls. *)
Definition toasts_in (evs : list event) : Z :=
  Z.of_nat (List.length (filter is_toast evs)).

(** What a scan adds to the tap counter: one when it returns true. *)
Definition counted (r : result bool) : Z :=
  match r with
  | Ok true => 1
  | _ => 0
  end.

End Script.

(** ** The runtime of the examples

    The examples need a [toLowerCase] that computes.  This one lowers the
    capitals below U+0100 and those of U+0400-U+042F, turns the capital I
    with a dot above, U+0130, into the two code units U+0069 U+0307, and
    keeps every other code unit.  On strings made of code units below
    U+0100, of U+0130 and of U+0400-U+045F, the strings of the examples,
    this is what the runtime does; elsewhere it is not, and no property of
    the script is proved from it. *)

Definition sample_lower_unit (c : N) : N :=
  (if (65 <=? c) && (c <=? 90) then c + 32
   else if (192 <=? c) && (c <=? 222) && negb (c =? 215) then c + 32
   else if (1024 <=? c) && (c <=? 1039) then c + 80
   else if (1040 <=? c) && (c <=? 1071) then c + 32
   else c)%N.

Definition sample_lower_units (c : N) : jsstring :=
  if (c =? 304)%N then [105; 775]%N else [sample_lower_unit c].

Definition sample_toLowerCase (s : jsstring) : jsstring :=
  flat_map sample_lower_units s.

#[global] Instance sample_runtime : Runtime :=
  {| toLowerCase := sample_toLowerCase |}.

(** ** Screens used in the examples *)

(** A button whose own [click()] works. *)
Definition skip_by_click : node :=
  {| UiObject.text := Some (lit "Skip");
     UiObject.desc := None;
     UiObject.id := None;
     UiObject.click := Ok true;
     UiObject.bounds := Ok (Some {| centerX := 540; centerY := 1200 |}) |}.

(** The button of the end-to-end scenario of the specification: text
    "Skip Ad", no working [click()], bounds centred at (100, 50). *)
Definition skip_by_tap : node :=
  {| UiObject.text := Some (lit "Skip Ad");
     UiObject.desc := None;
     UiObject.id := None;
     UiObject.click := Ok false;
     UiObject.bounds := Ok (Some {| centerX := 100; centerY := 50 |}) |}.

(** A button that cannot be tapped: [click()] fails and there are no
    bounds.  Only its description names a keyword. *)
Definition close_dead : node :=
  {| UiObject.text := None;
     UiObject.desc := Some (lit "Close");
     UiObject.id := None;
     UiObject.click := Ok false;
     UiObject.bounds := Ok None |}.

(** A host that shows [nodes] at time [t] and accepts every coordinate tap. *)
Definition screen (nodes : list node) (t : Z) : host :=
  {| Host.find := Ok nodes;
     Host.click := fun _ _ => Ok true;
     Host.getTime := t |}.

(** A host whose tree query throws. *)
Definition broken_screen (t : Z) : host :=
  {| Host.find := Throw (lit "Error: accessibility service is not running");
     Host.click := fun _ _ => Ok true;
     Host.getTime := t |}.

(** * Properties *)

(** ** Strings *)

Lemma startsWith_prefix (pat s : jsstring) :
  startsWith pat s = true <-> exists post, s = pat ++ post.
Proof.
  revert s; induction pat as [|p pat IH]; intros s; simpl.
  - split; [exists s; reflexivity | reflexivity].
  - destruct s as [|c s].
    + split; [discriminate | intros [post H]; discriminate].
    + rewrite andb_true_iff, N.eqb_eq, IH. split.
      * intros [-> [post ->]]. now exists post.
      * intros [post H]. injection H as -> ->. split; [reflexivity | now exists post].
Qed.

Lemma indexOf_from_found (s pat : jsstring) (i : Z) :
  0 <= i ->
  indexOf_from s pat i <> -1 <-> exists pre post, s = pre ++ pat ++ post.
Proof.
  revert i; induction s as [|c s IH]; intros i Hi.
  - simpl. destruct (startsWith pat []) eqn:E.
    + apply startsWith_prefix in E. destruct E as [post E].
      split; [intros _; exists [], post; exact E | lia].
    + split; [congruence |].
      intros (pre & post & H). destruct pre; simpl in H.
      * assert (startsWith pat [] = true) by (apply startsWith_prefix; now exists post).
        congruence.
      * discriminate.
  - cbn [indexOf_from]. destruct (startsWith pat (c :: s)) eqn:E.
    + apply startsWith_prefix in E. destruct E as [post E].
      split; [intros _; exists [], post; exact E | lia].
    + rewrite IH by lia. split.
      * intros (pre & post & ->). now exists (c :: pre), post.
      * intros (pre & post & H). destruct pre as [|c' pre]; simpl in H.
        -- assert (startsWith pat (c :: s) = true)
             by (apply startsWith_prefix; now exists post).
           congruence.
        -- injection H as _ ->. now exists pre, post.
Qed.

Lemma indexOf_found (s pat : jsstring) :
  indexOf s pat <> -1 <-> exists pre post, s = pre ++ pat ++ post.
Proof. apply indexOf_from_found; lia. Qed.



Lemma trimStart_black (s : jsstring) : starts_black (trimStart s).
Proof.
  induction s as [|c s IH]; simpl; [exact I|].
  destruct (is_ws c) eqn:E; [exact IH | exact E].
Qed.

Lemma trimStart_fix (s : jsstring) : starts_black s -> trimStart s = s.
Proof. destruct s as [|c s]; simpl; [reflexivity | now intros ->]. Qed.

Lemma trimStart_suffix (s : jsstring) : exists w, s = w ++ trimStart s.
Proof.
  induction s as [|c s [w IH]]; simpl.
  - now exists [].
  - destruct (is_ws c).
    + exists (c :: w). simpl. now rewrite <- IH.
    + now exists [].
Qed.

Lemma trimEnd_black (s : jsstring) : starts_black s -> starts_black (trimEnd s).
Proof.
  intros H. unfold trimEnd.
  destruct (trimStart_suffix (rev s)) as [w E].
  apply (f_equal (@rev N)) in E. rewrite rev_involutive, rev_app_distr in E.
  destruct (rev (trimStart (rev s))) as [|c u]; [exact I|].
  rewrite E in H. exact H.
Qed.

Lemma trim_idem (s : jsstring) : trim (trim s) = trim s.
Proof.
  unfold trim at 1.
  rewrite (trimStart_fix (trim s)).
  - unfold trim, trimEnd. rewrite rev_involutive.
    now rewrite (trimStart_fix _ (trimStart_black _)).
  - apply trimEnd_black, trimStart_black.
Qed.

(** ** Keywords *)

Section Keywords.

Context {rt : Runtime}.

Lemma hasKeyword_from_true (low : jsstring) (keywords : list jsstring) :
  hasKeyword_from low keywords = true
  <-> exists k, In k keywords /\ exists pre post, low = pre ++ k ++ post.
Proof.
  induction keywords as [|k rest IH]; simpl.
  - split; [discriminate | intros (k & [] & _)].
  - destruct (indexOf low k =? -1) eqn:E; simpl.
    + apply Z.eqb_eq in E. rewrite IH. split.
      * intros (k' & Hin & H). exists k'. auto.
      * intros (k' & [<- | Hin] & H).
        -- apply indexOf_found in H. contradiction.
        -- exists k'. auto.
    + apply Z.eqb_neq, indexOf_found in E.
      split; [intros _; exists k; auto | reflexivity].
Qed.

Lemma hasKeyword_no_keywords (text : option jsstring) : hasKeyword text [] = false.
Proof. unfold hasKeyword. destruct (falsy text); reflexivity. Qed.

Lemma normalized_fixed (keywords : list jsstring) :
  normalized keywords -> normalizeKeywords keywords = keywords.
Proof.
  unfold normalizeKeywords.
  induction 1 as [|k rest (Hlow & Htrim & Hne) _ IH]; [reflexivity|].
  simpl. rewrite Hlow, Htrim.
  destruct k as [|c k]; [contradiction|].
  cbn [List.length]. replace (0 <? Z.of_nat (S (List.length k))) with true.
  - now rewrite IH.
  - symmetry. apply Z.ltb_lt. lia.
Qed.

(** C3, as amended: [hasKeyword] is false for an absent and for an empty
    text; for a non-empty text it is true exactly when some keyword of the
    list occurs, as it is written, in the lower-cased text.  This holds of
    every keyword list, normalized or not, and whatever [toLowerCase] does. *)
Theorem hasKeyword_lowered_text_spec (keywords : list jsstring) (text : jsstring) :
  hasKeyword None keywords = false
  /\ hasKeyword (Some []) keywords = false
  /\ (text <> [] ->
      (hasKeyword (Some text) keywords = true
       <-> exists k, In k keywords /\ occurs_in k (toLowerCase text))).
Proof.
  split; [reflexivity|]. split; [reflexivity|].
  intros Hne. unfold hasKeyword, occurs_in.
  destruct text as [|c text]; [contradiction|].
  cbn [falsy of_nullable]. apply hasKeyword_from_true.
Qed.

Lemma nonempty_length (s : jsstring) :
  (0 <? Z.of_nat (List.length s)) = true <-> s <> [].
Proof.
  destruct s as [|c s]; simpl.
  - split; [discriminate | congruence].
  - split; [discriminate | reflexivity].
Qed.


(** What C8 asks of the runtime is asked of it by the claim itself: it is
    idempotence on the lists of one keyword. *)
Lemma normalizeKeywords_idempotent_only_if :
  (forall l, normalizeKeywords (normalizeKeywords l) = normalizeKeywords l) ->
  forall x, trim (toLowerCase x) <> [] ->
            trim (toLowerCase (trim (toLowerCase x))) = trim (toLowerCase x).
Proof.
  intros Hidem x Hne. specialize (Hidem [x]).
  unfold normalizeKeywords in Hidem. cbn [map filter] in Hidem.
  rewrite (proj2 (nonempty_length _) Hne) in Hidem. cbn [map filter] in Hidem.
  destruct (0 <? Z.of_nat (List.length (trim (toLowerCase (trim (toLowerCase x))))));
    [now injection Hidem | discriminate].
Qed.


End Keywords.

(** ** Keywords on the runtime of the examples *)















(** C3, as amended, on the script's own keyword list and the text of a
    button in capitals. *)
Lemma hasKeyword_lowered_text_spec_witness :
  lit "SKIP AD >" <> []
  /\ hasKeyword (Some (lit "SKIP AD >")) (normalizeKeywords DEFAULT_KEYWORDS) = true
  /\ exists k, In k (normalizeKeywords DEFAULT_KEYWORDS)
               /\ occurs_in k (toLowerCase (lit "SKIP AD >")).
Proof.
  assert (Hne : lit "SKIP AD >" <> []) by discriminate.
  split; [exact Hne|].
  destruct (hasKeyword_lowered_text_spec (normalizeKeywords DEFAULT_KEYWORDS)
              (lit "SKIP AD >")) as (_ & _ & H).
  assert (Ht : hasKeyword (Some (lit "SKIP AD >")) (normalizeKeywords DEFAULT_KEYWORDS) = true)
    by reflexivity.
  split; [exact Ht|].
  exact (proj1 (H Hne) Ht).
Defined.

(** C3, as stated, fails.  The capital I with a dot above, U+0130, is
    lowered to two code units, i and the combining dot U+0307.  The keyword
    list [i] is normalized and the text is that one letter: [hasKeyword]
    finds i in the lowered text and answers true, while no part of the text
    (the empty one, or the letter) differs from i by case only. *)
Lemma hasKeyword_dotted_capital_I :
  let keywords := [[105%N]] in
  let text := [304%N] in
  normalized keywords
  /\ text <> []
  /\ toLowerCase text = [105%N; 775%N]
  /\ hasKeyword (Some text) keywords = true
  /\ ~ (exists k, In k keywords /\ occurs_ignoring_case k text).
Proof.
  cbv zeta. split; [|split; [|split; [|split]]].
  - constructor; [|constructor]. repeat split. discriminate.
  - discriminate.
  - reflexivity.
  - reflexivity.
  - intros (k & [<- | []] & pre & mid & post & E & Hlow).
    destruct mid as [|m mid].
    + vm_compute in Hlow. discriminate.
    + destruct pre as [|p pre].
      * cbn [app] in E. injection E as <- E.
        destruct mid; [|discriminate]. vm_compute in Hlow. discriminate.
      * cbn [app] in E. injection E as _ E. destruct pre; discriminate.
Qed.


(** ** The state *)

Lemma record_calls_nil (s : state) : record_calls s [] = s.
Proof. destruct s. unfold record_calls. simpl. now rewrite app_nil_r. Qed.

Lemma record_calls_app (s : state) (a b : list event) :
  record_calls (record_calls s a) b = record_calls s (a ++ b).
Proof. unfold record_calls. simpl. now rewrite app_assoc. Qed.

Lemma clicked_nodes_app (a b : list event) :
  clicked_nodes (a ++ b) = clicked_nodes a ++ clicked_nodes b.
Proof.
  induction a as [|e a IH]; [reflexivity|].
  destruct e; simpl; now rewrite IH.
Qed.

(** ** The tap dispatcher *)

(** C6: when the element's own [click()] reports success, [clickNode]
    returns true having made that one call only: [bounds()] is not called
    and no coordinate tap is issued. *)
Theorem clickNode_native_success (h : host) (n : node) (s : state) :
  UiObject.click n = Ok true ->
  clickNode h (Some n) s = (Ok true, record_calls s [ev_node_click n]).
Proof.
  intros Hc. unfold clickNode, node_click, bind, emit, lift, ret. simpl.
  now rewrite Hc.
Qed.

(** C7: when [click()] reports failure and [bounds()] gives nothing,
    [clickNode] returns false and no coordinate tap is issued. *)
Theorem clickNode_no_bounds (h : host) (n : node) (s : state) :
  UiObject.click n = Ok false ->
  UiObject.bounds n = Ok None ->
  clickNode h (Some n) s
  = (Ok false, record_calls s [ev_node_click n; ev_node_bounds n]).
Proof.
  intros Hc Hb.
  unfold clickNode, node_click, node_bounds, bind, emit, lift, ret. simpl.
  rewrite Hc, Hb. unfold record_calls. simpl. now rewrite <- app_assoc.
Qed.

(** C5: when [click()] reports failure and [bounds()] gives a rectangle,
    [clickNode] taps the centre of the rectangle and returns what that tap
    returns. *)
Theorem clickNode_taps_center (h : host) (n : node) (r : Rect) (s : state) :
  UiObject.click n = Ok false ->
  UiObject.bounds n = Ok (Some r) ->
  clickNode h (Some n) s
  = (Host.click h (centerX r) (centerY r),
     record_calls s [ev_node_click n; ev_node_bounds n;
                     ev_click (centerX r) (centerY r)]).
Proof.
  intros Hc Hb.
  unfold clickNode, node_click, node_bounds, click, bind, emit, lift, ret. simpl.
  rewrite Hc, Hb. unfold record_calls. simpl. rewrite <- !app_assoc. simpl.
  destruct (Host.click h (centerX r) (centerY r)); reflexivity.
Qed.

(** [clickNode] on an element: its answer is [tap_outcome], the globals are
    kept, and the element's [click()] is the only [click()] called. *)
Lemma clickNode_run (h : host) (n : node) (s : state) :
  exists evs,
    clickNode h (Some n) s = (tap_outcome h n, record_calls s evs)
    /\ clicked_nodes evs = [n].
Proof.
  unfold tap_outcome, clickNode, node_click, node_bounds, click.
  unfold bind, emit, lift, ret. cbn [fst snd].
  destruct (UiObject.click n) as [[|]|e].
  - exists [ev_node_click n]. auto.
  - destruct (UiObject.bounds n) as [[r|]|e].
    + exists [ev_node_click n; ev_node_bounds n; ev_click (centerX r) (centerY r)].
      unfold record_calls. cbn [lastToastAt taps trace]. rewrite <- !app_assoc.
      destruct (Host.click h (centerX r) (centerY r)); auto.
    + exists [ev_node_click n; ev_node_bounds n].
      unfold record_calls. cbn [lastToastAt taps trace]. rewrite <- !app_assoc. auto.
    + exists [ev_node_click n; ev_node_bounds n].
      unfold record_calls. cbn [lastToastAt taps trace]. rewrite <- !app_assoc. auto.
  - exists [ev_node_click n]. auto.
Qed.

(** ** The notifier *)

Lemma notifyThrottled_shown (h : host) (message : jsstring) (s : state) :
  TOAST_INTERVAL_MS <= Host.getTime h - lastToastAt s ->
  notifyThrottled h message s
  = (Ok tt, {| lastToastAt := Host.getTime h; taps := taps s;
               trace := trace s ++ [ev_toast message] |}).
Proof.
  intros H. unfold notifyThrottled, now, gets, bind, ret. simpl.
  replace (Host.getTime h - lastToastAt s >=? TOAST_INTERVAL_MS) with true.
  - reflexivity.
  - symmetry. apply Z.geb_le. exact H.
Qed.

Lemma notifyThrottled_silent (h : host) (message : jsstring) (s : state) :
  Host.getTime h - lastToastAt s < TOAST_INTERVAL_MS ->
  notifyThrottled h message s = (Ok tt, s).
Proof.
  intros H. unfold notifyThrottled, now, gets, bind, ret. simpl.
  replace (Host.getTime h - lastToastAt s >=? TOAST_INTERVAL_MS) with false.
  - reflexivity.
  - symmetry. rewrite Z.geb_leb. apply Z.leb_gt. exact H.
Qed.

Lemma notifyThrottled_ok (h : host) (message : jsstring) (s : state) :
  fst (notifyThrottled h message s) = Ok tt.
Proof.
  destruct (Z_lt_le_dec (Host.getTime h - lastToastAt s) TOAST_INTERVAL_MS).
  - now rewrite notifyThrottled_silent.
  - now rewrite notifyThrottled_shown.
Qed.

(** The notifier returns: the case of a throw is dismissed. *)
Ltac run_notifier :=
  match goal with
  | |- context [notifyThrottled ?h ?m ?s] =>
      let Hok := fresh "Hok" in
      pose proof (notifyThrottled_ok h m s) as Hok;
      destruct (notifyThrottled h m s) as [[[]|?] ?];
      [|discriminate Hok]
  end.

(** C4: after a call of [notifyThrottled] that showed its toast, the next
    call shows nothing and keeps the time stamp when the clock has advanced
    by less than the throttle interval; it shows its toast and takes the new
    time stamp when the clock has advanced by the interval or more. *)
Theorem notifyThrottled_twice (h1 h2 : host) (m1 m2 : jsstring) (s : state) :
  trace (snd (notifyThrottled h1 m1 s)) = trace s ++ [ev_toast m1] ->
  let s1 := snd (notifyThrottled h1 m1 s) in
  (Host.getTime h2 - Host.getTime h1 < TOAST_INTERVAL_MS ->
   notifyThrottled h2 m2 s1 = (Ok tt, s1))
  /\ (TOAST_INTERVAL_MS <= Host.getTime h2 - Host.getTime h1 ->
      notifyThrottled h2 m2 s1
      = (Ok tt, {| lastToastAt := Host.getTime h2; taps := taps s1;
                   trace := trace s1 ++ [ev_toast m2] |})).
Proof.
  intros Hshown s1.
  assert (Hlast : lastToastAt s1 = Host.getTime h1).
  { subst s1.
    destruct (Z_lt_le_dec (Host.getTime h1 - lastToastAt s) TOAST_INTERVAL_MS) as [Hlt|Hge].
    - rewrite notifyThrottled_silent in Hshown by exact Hlt. simpl in Hshown.
      apply (f_equal (@List.length event)) in Hshown.
      rewrite length_app in Hshown. simpl in Hshown. lia.
    - now rewrite notifyThrottled_shown by exact Hge. }
  split; intros H.
  - apply notifyThrottled_silent. rewrite Hlast. exact H.
  - apply notifyThrottled_shown. rewrite Hlast. exact H.
Qed.

(** ** The scan *)

Section Scan.

Context {rt : Runtime}.

Variables (h : host) (keywords : list jsstring).

(** The elements the scan passes: those that do not match, and those that
    match but cannot be tapped. *)
Lemma findAndTap_from_passes (pre rest : list node) (s : state) :
  (forall m, In m pre -> matched keywords m = true -> tap_outcome h m = Ok false) ->
  exists evs,
    findAndTap_from h keywords (pre ++ rest) s
    = findAndTap_from h keywords rest (record_calls s evs)
    /\ clicked_nodes evs = filter (matched keywords) pre.
Proof.
  revert s. induction pre as [|m pre IH]; intros s Hpre.
  - exists []. now rewrite record_calls_nil.
  - assert (Hpre' : forall m', In m' pre -> matched keywords m' = true ->
                               tap_outcome h m' = Ok false)
      by (intros m' Hin; apply Hpre; now right).
    cbn [app findAndTap_from filter].
    destruct (matched keywords m) eqn:Hm; cbn [negb].
    + destruct (clickNode_run h m s) as (evs0 & Hrun & Hclicked).
      rewrite (Hpre m (or_introl eq_refl) Hm) in Hrun.
      destruct (IH (record_calls s evs0) Hpre') as (evs & Hrest & Hevs).
      exists (evs0 ++ evs). split.
      * unfold bind at 1. rewrite Hrun. rewrite Hrest.
        now rewrite record_calls_app.
      * rewrite clicked_nodes_app, Hclicked, Hevs. reflexivity.
    + destruct (IH s Hpre') as (evs & Hrest & Hevs).
      exists evs. auto.
Qed.

(** The element the scan stops at: it matches and the tap succeeds. *)
Lemma findAndTap_from_hit (n : node) (post : list node) (s : state) :
  matched keywords n = true ->
  tap_outcome h n = Ok true ->
  exists evs,
    findAndTap_from h keywords (n :: post) s
    = (Ok true, {| lastToastAt := lastToastAt s; taps := taps s + 1;
                   trace := trace s ++ evs |})
    /\ clicked_nodes evs = [n].
Proof.
  intros Hm Hn. cbn [findAndTap_from]. rewrite Hm. cbn [negb].
  destruct (clickNode_run h n s) as (evs0 & Hrun & Hclicked).
  rewrite Hn in Hrun.
  exists (evs0 ++ [ev_log (tapped_message (taps s + 1) (UiObject.text n)
                             (UiObject.desc n) (UiObject.id n))]).
  split.
  - unfold bind at 1. rewrite Hrun.
    unfold bind, gets, set_taps, log, emit, ret, record_calls. simpl.
    now rewrite <- app_assoc.
  - rewrite clicked_nodes_app, Hclicked. reflexivity.
Qed.

Lemma findAndTap_from_lastToastAt (nodes : list node) (s : state) :
  lastToastAt (snd (findAndTap_from h keywords nodes s)) = lastToastAt s.
Proof.
  revert s. induction nodes as [|n nodes IH]; intros s; [reflexivity|].
  cbn [findAndTap_from]. destruct (matched keywords n); cbn [negb]; [|apply IH].
  destruct (clickNode_run h n s) as (evs0 & Hrun & _).
  unfold bind at 1. rewrite Hrun.
  destruct (tap_outcome h n) as [[|]|e]; [reflexivity | | reflexivity].
  now rewrite IH.
Qed.

Lemma findAndTap_lastToastAt (s : state) :
  lastToastAt (snd (findAndTap h keywords s)) = lastToastAt s.
Proof.
  unfold findAndTap, bind, lift.
  destruct (Host.find h) as [nodes|e]; [|reflexivity].
  apply findAndTap_from_lastToastAt.
Qed.

Lemma findAndTap_from_trace (nodes : list node) (s : state) :
  exists evs, trace (snd (findAndTap_from h keywords nodes s)) = trace s ++ evs.
Proof.
  revert s. induction nodes as [|n nodes IH]; intros s.
  - exists []. simpl. now rewrite app_nil_r.
  - cbn [findAndTap_from]. destruct (matched keywords n); cbn [negb]; [|apply IH].
    destruct (clickNode_run h n s) as (evs0 & Hrun & _).
    unfold bind at 1. rewrite Hrun.
    destruct (tap_outcome h n) as [[|]|e].
    + eexists. unfold bind, gets, set_taps, log, emit, ret, record_calls. simpl.
      rewrite <- app_assoc. reflexivity.
    + destruct (IH (record_calls s evs0)) as (evs & Hevs).
      exists (evs0 ++ evs). rewrite Hevs. simpl. now rewrite app_assoc.
    + exists evs0. reflexivity.
Qed.

Lemma findAndTap_trace (s : state) :
  exists evs, trace (snd (findAndTap h keywords s)) = trace s ++ evs.
Proof.
  unfold findAndTap, bind, lift.
  destruct (Host.find h) as [nodes|e].
  - apply findAndTap_from_trace.
  - exists []. simpl. now rewrite app_nil_r.
Qed.

End Scan.

Section ScanAndLoop.

Context {rt : Runtime}.

Lemma findAndTap_from_no_keywords (h : host) (nodes : list node) (s : state) :
  findAndTap_from h [] nodes s = (Ok false, s).
Proof.
  induction nodes as [|n nodes IH]; [reflexivity|].
  cbn [findAndTap_from]. unfold matched.
  now rewrite !hasKeyword_no_keywords.
Qed.

(** C9: with no keyword at all [hasKeyword] is false whatever the text,
    and the scan returns false (or throws what the query threw) having
    changed nothing: no call on the host, no tap counted. *)
Theorem no_keywords_no_tap (text : option jsstring) (h : host) (s : state) :
  hasKeyword text [] = false
  /\ findAndTap h [] s
     = (match Host.find h with
        | Ok _ => Ok false
        | Throw e => Throw e
        end, s).
Proof.
  split; [apply hasKeyword_no_keywords|].
  unfold findAndTap, bind, lift.
  destruct (Host.find h) as [nodes|e]; [|reflexivity].
  apply findAndTap_from_no_keywords.
Qed.

(** ** The loop *)

Lemma main_cycle_pressed (keywords : list jsstring) (h : host) (s s1 : state) :
  findAndTap h keywords s = (Ok true, s1) ->
  main_cycle keywords h s = (Ok tt, record_calls s1 [ev_sleep CHECK_INTERVAL_MS]).
Proof.
  intros H. unfold main_cycle, try_catch. unfold bind at 1 2. now rewrite H.
Qed.

Lemma main_cycle_not_pressed (keywords : list jsstring) (h : host) (s s1 : state) :
  findAndTap h keywords s = (Ok false, s1) ->
  main_cycle keywords h s
  = (notifyThrottled h (lit "Skip helper: no matching button") ;;
     sleep CHECK_INTERVAL_MS) s1.
Proof.
  intros H. unfold main_cycle, try_catch. unfold bind at 1 2. rewrite H. cbn [negb].
  unfold bind. run_notifier. reflexivity.
Qed.

Lemma main_cycle_thrown (keywords : list jsstring) (h : host) (s s1 : state) (e : exn) :
  findAndTap h keywords s = (Throw e, s1) ->
  main_cycle keywords h s
  = (log (lit "Warning: " ++ e) ;;
     notifyThrottled h (lit "Skip helper warning: " ++ e) ;;
     sleep CHECK_INTERVAL_MS) s1.
Proof.
  intros H. unfold main_cycle, try_catch. unfold bind at 1 2. rewrite H.
  unfold bind, log, emit. run_notifier. reflexivity.
Qed.

(** A turn of the loop never throws. *)
Lemma main_cycle_ok (keywords : list jsstring) (h : host) (s : state) :
  fst (main_cycle keywords h s) = Ok tt.
Proof.
  destruct (findAndTap h keywords s) as [[[|]|e] s1] eqn:H.
  - now rewrite (main_cycle_pressed _ _ _ _ H).
  - rewrite (main_cycle_not_pressed _ _ _ _ H).
    unfold bind. run_notifier. reflexivity.
  - rewrite (main_cycle_thrown _ _ _ _ _ H).
    unfold bind, log, emit. run_notifier. reflexivity.
Qed.

Lemma main_loop_cons (keywords : list jsstring) (h : host) (hs : list host) (s : state) :
  main_loop keywords (h :: hs) s
  = main_loop keywords hs (snd (main_cycle keywords h s)).
Proof.
  cbn [main_loop]. unfold bind.
  pose proof (main_cycle_ok keywords h s) as Hok.
  destruct (main_cycle keywords h s) as [[[]|e] s1]; [reflexivity | discriminate].
Qed.

Lemma main_loop_ok (keywords : list jsstring) (hs : list host) (s : state) :
  fst (main_loop keywords hs s) = Ok tt.
Proof.
  revert s. induction hs as [|h hs IH]; intros s; [reflexivity|].
  rewrite main_loop_cons. apply IH.
Qed.

Lemma main_loop_app (keywords : list jsstring) (hs1 hs2 : list host) (s : state) :
  main_loop keywords (hs1 ++ hs2) s
  = main_loop keywords hs2 (snd (main_loop keywords hs1 s)).
Proof.
  revert s. induction hs1 as [|h hs1 IH]; intros s; [reflexivity|].
  cbn [app]. rewrite !main_loop_cons. apply IH.
Qed.

(** C1, as amended: the scan calls the tap dispatcher on each matching
    element in enumeration order until one tap succeeds.  A match that
    cannot be tapped is followed by the next matching element of the same
    snapshot; the first one tapped ends the scan, the tap is counted and the
    turn goes to sleep without a notification.  When no matching element can
    be tapped the scan returns false and the turn calls the throttled
    notifier. *)
Theorem findAndTap_tries_each_match (h : host) (keywords : list jsstring) (s : state) :
  (forall pre n post,
      Host.find h = Ok (pre ++ n :: post) ->
      (forall m, In m pre -> matched keywords m = true -> tap_outcome h m = Ok false) ->
      matched keywords n = true ->
      tap_outcome h n = Ok true ->
      exists evs,
        clicked_nodes evs = filter (matched keywords) pre ++ [n]
        /\ findAndTap h keywords s
           = (Ok true, {| lastToastAt := lastToastAt s; taps := taps s + 1;
                          trace := trace s ++ evs |})
        /\ main_cycle keywords h s
           = (Ok tt, {| lastToastAt := lastToastAt s; taps := taps s + 1;
                        trace := trace s ++ evs ++ [ev_sleep CHECK_INTERVAL_MS] |}))
  /\ (forall nodes,
         Host.find h = Ok nodes ->
         (forall m, In m nodes -> matched keywords m = true -> tap_outcome h m = Ok false) ->
         exists evs,
           clicked_nodes evs = filter (matched keywords) nodes
           /\ findAndTap h keywords s = (Ok false, record_calls s evs)
           /\ main_cycle keywords h s
              = (notifyThrottled h (lit "Skip helper: no matching button") ;;
                 sleep CHECK_INTERVAL_MS) (record_calls s evs)).
Proof.
  split.
  - intros pre n post Hfind Hpre Hm Hn.
    destruct (findAndTap_from_passes h keywords pre (n :: post) s Hpre)
      as (evs1 & Hpass & Hc1).
    destruct (findAndTap_from_hit h keywords n post (record_calls s evs1) Hm Hn)
      as (evs2 & Hhit & Hc2).
    exists (evs1 ++ evs2).
    assert (Hscan : findAndTap h keywords s
                    = (Ok true, {| lastToastAt := lastToastAt s; taps := taps s + 1;
                                   trace := trace s ++ evs1 ++ evs2 |})).
    { unfold findAndTap, bind, lift. rewrite Hfind, Hpass, Hhit.
      simpl. now rewrite <- app_assoc. }
    split; [now rewrite clicked_nodes_app, Hc1, Hc2|].
    split; [exact Hscan|].
    rewrite (main_cycle_pressed _ _ _ _ Hscan).
    unfold record_calls. simpl. now rewrite <- !app_assoc.
  - intros nodes Hfind Hall.
    destruct (findAndTap_from_passes h keywords nodes [] s Hall)
      as (evs & Hpass & Hc).
    rewrite app_nil_r in Hpass.
    exists evs.
    assert (Hscan : findAndTap h keywords s = (Ok false, record_calls s evs)).
    { unfold findAndTap, bind, lift. rewrite Hfind, Hpass. reflexivity. }
    split; [exact Hc|]. split; [exact Hscan|].
    apply main_cycle_not_pressed. exact Hscan.
Qed.

(** C2: when the scan of a turn throws [e], the turn logs a warning with
    [e], calls the throttled notifier with [e], sleeps, and the loop goes on
    with the turns that follow; whatever is thrown, the loop does not end. *)
Theorem main_loop_survives_throw (keywords : list jsstring)
    (hs1 : list host) (h : host) (hs2 : list host) (s s1 : state) (e : exn) :
  let s0 := snd (main_loop keywords hs1 s) in
  findAndTap h keywords s0 = (Throw e, s1) ->
  let s2 := record_calls s1 [ev_log (lit "Warning: " ++ e)] in
  let s3 := snd (notifyThrottled h (lit "Skip helper warning: " ++ e) s2) in
  let s4 := record_calls s3 [ev_sleep CHECK_INTERVAL_MS] in
  main_cycle keywords h s0 = (Ok tt, s4)
  /\ main_loop keywords (hs1 ++ h :: hs2) s = main_loop keywords hs2 s4
  /\ fst (main_loop keywords (hs1 ++ h :: hs2) s) = Ok tt.
Proof.
  intros s0 Hthrow s2 s3 s4.
  assert (Hcycle : main_cycle keywords h s0 = (Ok tt, s4)).
  { rewrite (main_cycle_thrown _ _ _ _ _ Hthrow).
    subst s4 s3 s2. unfold bind, log, emit, record_calls at 2.
    run_notifier. reflexivity. }
  split; [exact Hcycle|]. split.
  - rewrite main_loop_app, main_loop_cons. fold s0. now rewrite Hcycle.
  - apply main_loop_ok.
Qed.

(** ** The first notification *)

Lemma all_pressed_lastToastAt (keywords : list jsstring) (hs : list host) (s : state) :
  all_pressed keywords hs s ->
  lastToastAt (snd (main_loop keywords hs s)) = lastToastAt s.
Proof.
  revert s. induction hs as [|h hs IH]; intros s Hall; [reflexivity|].
  destruct Hall as [Hp Hall]. rewrite main_loop_cons, (IH _ Hall).
  pose proof (findAndTap_lastToastAt h keywords s) as Hlast.
  destruct (findAndTap h keywords s) as [r s1] eqn:Hscan. simpl in Hp, Hlast.
  subst r. now rewrite (main_cycle_pressed _ _ _ _ Hscan).
Qed.

(** C10: the time stamp starts at 0 and the start-up toast of [main] leaves
    it at 0; so do the turns in which a button is tapped.  The first turn
    that reaches [notifyThrottled] therefore shows its toast as soon as the
    clock reads the throttle interval or more, and takes the clock's time
    as the new time stamp. *)
Theorem first_notification_is_shown (hs : list host) (h : host) :
  let keywords := normalizeKeywords DEFAULT_KEYWORDS in
  let s0 := snd (main_start initial) in
  let s := snd (main_loop keywords hs s0) in
  all_pressed keywords hs s0 ->
  fst (findAndTap h keywords s) <> Ok true ->
  TOAST_INTERVAL_MS <= Host.getTime h ->
  lastToastAt initial = 0
  /\ lastToastAt s0 = 0
  /\ lastToastAt s = 0
  /\ lastToastAt (snd (main_cycle keywords h s)) = Host.getTime h
  /\ exists evs message,
       trace (snd (main_cycle keywords h s))
       = trace s ++ evs ++ [ev_toast message; ev_sleep CHECK_INTERVAL_MS].
Proof.
  intros keywords s0 s Hall Hnot Htime.
  assert (Hs : lastToastAt s = 0)
    by (subst s; now rewrite (all_pressed_lastToastAt _ _ _ Hall)).
  split; [reflexivity|]. split; [reflexivity|]. split; [exact Hs|].
  pose proof (findAndTap_lastToastAt h keywords s) as Hlast.
  destruct (findAndTap_trace h keywords s) as (evs & Hevs).
  destruct (findAndTap h keywords s) as [[[|]|e] s1] eqn:Hscan;
    simpl in Hnot, Hlast, Hevs.
  - congruence.
  - assert (Hc : main_cycle keywords h s
                 = (Ok tt, {| lastToastAt := Host.getTime h; taps := taps s1;
                              trace := (trace s1
                                        ++ [ev_toast (lit "Skip helper: no matching button")])
                                       ++ [ev_sleep CHECK_INTERVAL_MS] |})).
    { rewrite (main_cycle_not_pressed _ _ _ _ Hscan). unfold bind.
      now rewrite notifyThrottled_shown by lia. }
    rewrite Hc. cbn [snd lastToastAt trace]. split; [reflexivity|].
    exists evs, (lit "Skip helper: no matching button").
    rewrite Hevs. now rewrite <- !app_assoc.
  - assert (Hc : main_cycle keywords h s
                 = (Ok tt, {| lastToastAt := Host.getTime h; taps := taps s1;
                              trace := ((trace s1 ++ [ev_log (lit "Warning: " ++ e)])
                                        ++ [ev_toast (lit "Skip helper warning: " ++ e)])
                                       ++ [ev_sleep CHECK_INTERVAL_MS] |})).
    { rewrite (main_cycle_thrown _ _ _ _ _ Hscan). unfold bind, log, emit.
      now rewrite notifyThrottled_shown by (cbn [lastToastAt]; lia). }
    rewrite Hc. cbn [snd lastToastAt trace]. split; [reflexivity|].
    exists (evs ++ [ev_log (lit "Warning: " ++ e)]), (lit "Skip helper warning: " ++ e).
    rewrite Hevs. now rewrite <- !app_assoc.
Qed.

End ScanAndLoop.

(** ** The properties on the screens of the examples *)

(** Both parts of the amended C1 on screens of the examples: a dead match
    followed by a live one, and a dead match alone. *)
Lemma findAndTap_tries_each_match_witness :
  (exists evs,
      clicked_nodes evs = [close_dead; skip_by_click]
      /\ findAndTap (screen [close_dead; skip_by_click] 1700000000000) [lit "skip"; lit "close"] initial
         = (Ok true, {| lastToastAt := 0; taps := 1; trace := evs |}))
  /\ (exists evs,
         clicked_nodes evs = [close_dead]
         /\ findAndTap (screen [close_dead] 1700000000000) [lit "skip"; lit "close"] initial
            = (Ok false, record_calls initial evs)).
Proof.
  split.
  - destruct (proj1 (findAndTap_tries_each_match
                       (screen [close_dead; skip_by_click] 1700000000000)
                       [lit "skip"; lit "close"] initial)
                [close_dead] skip_by_click [] eq_refl) as (evs & Hc & Hscan & _).
    + intros m [<- | []] _. reflexivity.
    + reflexivity.
    + reflexivity.
    + exists evs. split; [exact Hc | exact Hscan].
  - destruct (proj2 (findAndTap_tries_each_match
                       (screen [close_dead] 1700000000000)
                       [lit "skip"; lit "close"] initial)
                [close_dead] eq_refl) as (evs & Hc & Hscan & _).
    + intros m [<- | []] _. reflexivity.
    + exists evs. split; [exact Hc | exact Hscan].
Defined.

(** C1, as stated, fails: the first match of this snapshot cannot be
    tapped, and the turn neither stops at it nor calls the notifier; it taps
    the next matching element. *)
Lemma findAndTap_goes_past_failed_match :
  let keywords := normalizeKeywords DEFAULT_KEYWORDS in
  let nodes := [close_dead; skip_by_click] in
  let h := screen nodes 1700000000000 in
  find (matched keywords) nodes = Some close_dead
  /\ tap_outcome h close_dead = Ok false
  /\ main_cycle keywords h initial
     = (Ok tt, {| lastToastAt := 0; taps := 1;
                  trace := [ev_node_click close_dead; ev_node_bounds close_dead;
                            ev_node_click skip_by_click;
                            ev_log (tapped_message 1 (Some (lit "Skip")) None None);
                            ev_sleep 800] |})
  /\ main_cycle keywords h initial
     <> (notifyThrottled h (lit "Skip helper: no matching button") ;;
         sleep CHECK_INTERVAL_MS)
          (record_calls initial [ev_node_click close_dead; ev_node_bounds close_dead]).
Proof.
  repeat split.
  vm_compute. discriminate.
Qed.

(** C2 on a host whose query throws in the first of two turns: the warning
    is logged and shown, and the second turn taps the button. *)
Lemma main_loop_survives_throw_witness :
  let keywords := normalizeKeywords DEFAULT_KEYWORDS in
  let broken := broken_screen 1700000000000 in
  let mended := screen [skip_by_tap] 1700000000800 in
  let e := lit "Error: accessibility service is not running" in
  findAndTap broken keywords initial = (Throw e, initial)
  /\ main_cycle keywords broken initial
     = (Ok tt, {| lastToastAt := 1700000000000; taps := 0;
                  trace := [ev_log (lit "Warning: " ++ e);
                            ev_toast (lit "Skip helper warning: " ++ e);
                            ev_sleep 800] |})
  /\ fst (main_loop keywords [broken; mended] initial) = Ok tt
  /\ taps (snd (main_loop keywords [broken; mended] initial)) = 1.
Proof.
  intros keywords broken mended e.
  assert (Hthrow : findAndTap broken keywords
                     (snd (main_loop keywords [] initial)) = (Throw e, initial))
    by reflexivity.
  destruct (main_loop_survives_throw keywords [] broken [mended] initial initial e Hthrow)
    as (Hcycle & Hloop & Hok).
  split; [exact Hthrow|].
  split; [exact Hcycle|].
  split; [exact Hok|].
  cbn [app] in Hloop. rewrite Hloop. reflexivity.
Defined.

(** C10 on a run where a button is tapped in the first turn and the screen
    is empty in the second: the second turn makes the first call of
    [notifyThrottled], and the toast is shown. *)
Lemma first_notification_is_shown_witness :
  let keywords := normalizeKeywords DEFAULT_KEYWORDS in
  let s0 := snd (main_start initial) in
  let hs := [screen [skip_by_tap] 1700000000000] in
  let h := screen [] 1700000000800 in
  all_pressed keywords hs s0
  /\ fst (findAndTap h keywords (snd (main_loop keywords hs s0))) <> Ok true
  /\ TOAST_INTERVAL_MS <= Host.getTime h
  /\ lastToastAt (snd (main_loop keywords hs s0)) = 0
  /\ lastToastAt (snd (main_cycle keywords h (snd (main_loop keywords hs s0))))
     = 1700000000800.
Proof.
  intros keywords s0 hs h.
  assert (Hall : all_pressed keywords hs s0) by (split; [reflexivity | exact I]).
  assert (Hnot : fst (findAndTap h keywords (snd (main_loop keywords hs s0))) <> Ok true)
    by discriminate.
  assert (Htime : TOAST_INTERVAL_MS <= Host.getTime h) by (vm_compute; discriminate).
  destruct (first_notification_is_shown hs h Hall Hnot Htime)
    as (_ & _ & Hs & Hshown & _).
  repeat split; assumption.
Defined.


(** C6 on a button whose [click()] works. *)
Lemma clickNode_native_success_witness :
  UiObject.click skip_by_click = Ok true
  /\ clickNode (screen [skip_by_click] 1700000000000) (Some skip_by_click) initial
     = (Ok true, {| lastToastAt := 0; taps := 0;
                    trace := [ev_node_click skip_by_click] |}).
Proof.
  split; [reflexivity|].
  exact (clickNode_native_success (screen [skip_by_click] 1700000000000)
           skip_by_click initial eq_refl).
Defined.

(** C7 on a button without a working [click()] and without bounds. *)
Lemma clickNode_no_bounds_witness :
  UiObject.click close_dead = Ok false
  /\ UiObject.bounds close_dead = Ok None
  /\ clickNode (screen [close_dead] 1700000000000) (Some close_dead) initial
     = (Ok false, {| lastToastAt := 0; taps := 0;
                     trace := [ev_node_click close_dead; ev_node_bounds close_dead] |}).
Proof.
  split; [reflexivity|]. split; [reflexivity|].
  exact (clickNode_no_bounds (screen [close_dead] 1700000000000)
           close_dead initial eq_refl eq_refl).
Defined.

(** C5 on the button of the end-to-end scenario: the tap goes to (100, 50). *)
Lemma clickNode_taps_center_witness :
  UiObject.click skip_by_tap = Ok false
  /\ UiObject.bounds skip_by_tap = Ok (Some {| centerX := 100; centerY := 50 |})
  /\ clickNode (screen [skip_by_tap] 1700000000000) (Some skip_by_tap) initial
     = (Ok true, {| lastToastAt := 0; taps := 0;
                    trace := [ev_node_click skip_by_tap; ev_node_bounds skip_by_tap;
                              ev_click 100 50] |}).
Proof.
  split; [reflexivity|]. split; [reflexivity|].
  exact (clickNode_taps_center (screen [skip_by_tap] 1700000000000)
           skip_by_tap {| centerX := 100; centerY := 50 |} initial eq_refl eq_refl).
Defined.

(** C4 with a first call at start-up time, a second call one turn (800 ms)
    later, which is silent, or five seconds later, which is shown. *)
Lemma notifyThrottled_twice_witness :
  let first := screen [] 1700000000000 in
  let soon := screen [] 1700000000800 in
  let late := screen [] 1700000005000 in
  let message := lit "Skip helper: no matching button" in
  let s1 := {| lastToastAt := 1700000000000; taps := 0;
               trace := [ev_toast message] |} in
  snd (notifyThrottled first message initial) = s1
  /\ notifyThrottled soon message s1 = (Ok tt, s1)
  /\ notifyThrottled late message s1
     = (Ok tt, {| lastToastAt := 1700000005000; taps := 0;
                  trace := [ev_toast message; ev_toast message] |}).
Proof.
  intros first soon late message s1.
  split; [reflexivity|]. split.
  - exact (proj1 (notifyThrottled_twice first soon message message initial eq_refl)
             eq_refl).
  - refine (proj2 (notifyThrottled_twice first late message message initial eq_refl) _).
    vm_compute. discriminate.
Defined.

(** * Further properties of the script *)

(** ** More on the keyword matcher *)

Section MoreKeywords.

Context {rt : Runtime}.

Lemma hasKeyword_from_app (low : jsstring) (ks1 ks2 : list jsstring) :
  hasKeyword_from low (ks1 ++ ks2)
  = hasKeyword_from low ks1 || hasKeyword_from low ks2.
Proof.
  induction ks1 as [|k ks1 IH]; [reflexivity|].
  simpl. destruct (negb (indexOf low k =? -1)); [reflexivity | exact IH].
Qed.

(** X1: matching against two keyword lists put end to end is matching
    against one or the other; keywords added to a list never lose a match. *)
Theorem hasKeyword_app (text : option jsstring) (ks1 ks2 : list jsstring) :
  hasKeyword text (ks1 ++ ks2) = hasKeyword text ks1 || hasKeyword text ks2.
Proof.
  unfold hasKeyword. destruct (falsy text); [reflexivity|].
  apply hasKeyword_from_app.
Qed.

(** X2: an empty keyword matches every text that is not absent or empty
    ([indexOf] finds the empty string at position 0); this is what the
    filter of [normalizeKeywords] keeps out of the list. *)
Theorem hasKeyword_empty_keyword (text : option jsstring) (keywords : list jsstring) :
  In [] keywords ->
  falsy text = false ->
  hasKeyword text keywords = true.
Proof.
  intros Hin Htext. unfold hasKeyword. rewrite Htext.
  apply hasKeyword_from_true. exists []. split; [exact Hin|].
  exists [], (toLowerCase (of_nullable text)). reflexivity.
Qed.

Lemma filter_map_fixed {A} (f : A -> A) (p : A -> bool) (l : list A) :
  filter p (map f l) = l -> Forall (fun k => f k = k /\ p k = true) l.
Proof.
  induction l as [|a l IH]; intros H; [constructor|].
  cbn [map filter] in H. destruct (p (f a)) eqn:E.
  - injection H as Ha Hl. constructor; [|exact (IH Hl)].
    split; [exact Ha | now rewrite <- Ha].
  - apply (f_equal (@List.length A)) in H.
    pose proof (filter_length_le p (map f l)) as Hle.
    rewrite length_map in Hle. cbn [List.length] in H. lia.
Qed.

(** X4: the lists [normalizeKeywords] leaves unchanged are exactly those
    whose every entry is not empty and is left as it is by lower-casing
    followed by trimming.  What it returns has trimmed, non-empty entries
    only and is never longer than its argument. *)
Theorem normalizeKeywords_fixpoints (l : list jsstring) :
  (normalizeKeywords l = l
   <-> Forall (fun k => trim (toLowerCase k) = k /\ k <> []) l)
  /\ Forall (fun k => trim k = k /\ k <> []) (normalizeKeywords l)
  /\ (List.length (normalizeKeywords l) <= List.length l)%nat.
Proof.
  split; [split|split].
  - intros E. unfold normalizeKeywords in E. apply filter_map_fixed in E.
    revert E. apply Forall_impl. intros k [Hk Hp].
    split; [exact Hk | now apply nonempty_length].
  - unfold normalizeKeywords.
    induction 1 as [|k rest [Hk Hne] _ IH]; [reflexivity|].
    cbn [map filter]. rewrite Hk, (proj2 (nonempty_length k) Hne).
    now rewrite IH.
  - unfold normalizeKeywords. apply Forall_forall. intros k Hk.
    apply filter_In in Hk. destruct Hk as [Hk Hlen].
    apply in_map_iff in Hk. destruct Hk as (x & <- & _).
    split; [apply trim_idem | now apply nonempty_length].
  - unfold normalizeKeywords.
    etransitivity; [apply filter_length_le|].
    now rewrite length_map.
Qed.

End MoreKeywords.

Lemma hasKeyword_empty_keyword_witness :
  In [] [lit "skip"; []]
  /\ falsy (Some (lit "OK")) = false
  /\ hasKeyword (Some (lit "OK")) [lit "skip"; []] = true.
Proof.
  assert (Hin : In ([] : jsstring) [lit "skip"; []]) by (right; left; reflexivity).
  split; [exact Hin|]. split; [reflexivity|].
  exact (hasKeyword_empty_keyword (Some (lit "OK")) [lit "skip"; []] Hin eq_refl).
Defined.

(** ** More on the scan *)

Lemma tapped_points_app (a b : list event) :
  tapped_points (a ++ b) = tapped_points a ++ tapped_points b.
Proof.
  induction a as [|e a IH]; [reflexivity|].
  destruct e; simpl; now rewrite IH.
Qed.

Lemma filter_is_toast_none (evs : list event) :
  Forall (fun e => is_toast e = false /\ is_sleep e = false) evs ->
  filter is_toast evs = [] /\ filter is_sleep evs = [].
Proof.
  induction 1 as [|e evs [Ht Hs] _ [IHt IHs]]; [split; reflexivity|].
  simpl. now rewrite Ht, Hs.
Qed.

Section ScanFrame.

Context {rt : Runtime}.

Variables (h : host) (keywords : list jsstring).

Lemma clickNode_frame (n : node) (s : state) :
  exists evs,
    clickNode h (Some n) s = (tap_outcome h n, record_calls s evs)
    /\ clicked_nodes evs = [n]
    /\ Forall (fallback_of n) (tapped_points evs)
    /\ Forall (fun e => is_toast e = false /\ is_sleep e = false) evs.
Proof.
  unfold tap_outcome, clickNode, node_click, node_bounds, click.
  unfold bind, emit, lift, ret. cbn [fst snd].
  destruct (UiObject.click n) as [[|]|e] eqn:Hc.
  - exists [ev_node_click n]. repeat split; auto.
  - destruct (UiObject.bounds n) as [[r|]|e] eqn:Hb.
    + exists [ev_node_click n; ev_node_bounds n; ev_click (centerX r) (centerY r)].
      unfold record_calls. cbn [lastToastAt taps trace]. rewrite <- !app_assoc.
      split; [destruct (Host.click h (centerX r) (centerY r)); reflexivity|].
      split; [reflexivity|]. split.
      * constructor; [|constructor]. split; [exact Hc|]. now exists r.
      * repeat constructor.
    + exists [ev_node_click n; ev_node_bounds n].
      unfold record_calls. cbn [lastToastAt taps trace]. rewrite <- !app_assoc.
      repeat split; auto.
    + exists [ev_node_click n; ev_node_bounds n].
      unfold record_calls. cbn [lastToastAt taps trace]. rewrite <- !app_assoc.
      repeat split; auto.
  - exists [ev_node_click n]. repeat split; auto.
Qed.

(** What a scan of [nodes] does to the state, whatever it returns. *)
Lemma findAndTap_from_frame (nodes : list node) (s : state) :
  exists r evs,
    findAndTap_from h keywords nodes s
    = (r, {| lastToastAt := lastToastAt s;
             taps := taps s + counted r;
             trace := trace s ++ evs |})
    /\ Forall (fun n => In n nodes /\ matched keywords n = true) (clicked_nodes evs)
    /\ Forall (fun p => exists n, In n nodes /\ matched keywords n = true
                                  /\ fallback_of n p) (tapped_points evs)
    /\ Forall (fun e => is_toast e = false /\ is_sleep e = false) evs.
Proof.
  revert s. induction nodes as [|n nodes IH]; intros s.
  - exists (Ok false), []. simpl. rewrite app_nil_r, Z.add_0_r.
    destruct s; repeat split; constructor.
  - assert (Hweak1 : forall ms,
               Forall (fun m => In m nodes /\ matched keywords m = true) ms ->
               Forall (fun m => In m (n :: nodes) /\ matched keywords m = true) ms).
    { intros ms. apply Forall_impl. intros m [Hin Hm]. split; [now right | exact Hm]. }
    assert (Hweak2 : forall ps,
               Forall (fun p => exists m, In m nodes /\ matched keywords m = true
                                          /\ fallback_of m p) ps ->
               Forall (fun p => exists m, In m (n :: nodes) /\ matched keywords m = true
                                          /\ fallback_of m p) ps).
    { intros ps. apply Forall_impl. intros p (m & Hin & Hm & Hp).
      exists m. split; [now right | auto]. }
    cbn [findAndTap_from]. destruct (matched keywords n) eqn:Hm; cbn [negb].
    + destruct (clickNode_frame n s) as (evs0 & Hrun & Hc0 & Hp0 & Hq0).
      assert (Hp0' : Forall (fun p => exists m, In m (n :: nodes)
                                                /\ matched keywords m = true
                                                /\ fallback_of m p)
                            (tapped_points evs0)).
      { revert Hp0. apply Forall_impl. intros p Hp. exists n.
        split; [now left | auto]. }
      unfold bind at 1. rewrite Hrun.
      destruct (tap_outcome h n) as [[|]|e].
      * exists (Ok true),
          (evs0 ++ [ev_log (tapped_message (taps s + 1) (UiObject.text n)
                              (UiObject.desc n) (UiObject.id n))]).
        unfold bind, gets, set_taps, log, emit, ret, record_calls. simpl.
        rewrite <- app_assoc. split; [reflexivity|].
        rewrite clicked_nodes_app, tapped_points_app, Hc0. simpl.
        rewrite app_nil_r. split; [|split].
        -- constructor; [|constructor]. split; [now left | exact Hm].
        -- exact Hp0'.
        -- apply Forall_app. split; [exact Hq0 | repeat constructor].
      * destruct (IH (record_calls s evs0)) as (r & evs & Hrest & Hc & Hp & Hq).
        exists r, (evs0 ++ evs). rewrite Hrest. unfold record_calls. simpl.
        rewrite <- app_assoc. split; [reflexivity|].
        rewrite clicked_nodes_app, tapped_points_app, Hc0. split; [|split].
        -- constructor; [split; [now left | exact Hm] | now apply Hweak1].
        -- apply Forall_app. split; [exact Hp0' | now apply Hweak2].
        -- apply Forall_app. split; assumption.
      * exists (Throw e), evs0. unfold record_calls. simpl. rewrite Z.add_0_r.
        split; [reflexivity|]. rewrite Hc0. split; [|split].
        -- constructor; [|constructor]. split; [now left | exact Hm].
        -- exact Hp0'.
        -- exact Hq0.
    + destruct (IH s) as (r & evs & Hrest & Hc & Hp & Hq).
      exists r, evs. split; [exact Hrest|]. split; [|split].
      * now apply Hweak1.
      * now apply Hweak2.
      * exact Hq.
Qed.

(** The same for [findAndTap], the query included. *)
Lemma findAndTap_frame (s : state) :
  exists r evs,
    findAndTap h keywords s
    = (r, {| lastToastAt := lastToastAt s;
             taps := taps s + counted r;
             trace := trace s ++ evs |})
    /\ Forall (fun e => is_toast e = false /\ is_sleep e = false) evs.
Proof.
  unfold findAndTap, bind, lift.
  destruct (Host.find h) as [nodes|e].
  - destruct (findAndTap_from_frame nodes s) as (r & evs & Hrest & _ & _ & Hq).
    exists r, evs. split; [exact Hrest | exact Hq].
  - exists (Throw e), []. simpl. rewrite app_nil_r, Z.add_0_r.
    destruct s; split; [reflexivity | constructor].
Qed.

Lemma findAndTap_from_unmatched (nodes : list node) (s : state) :
  (forall n, In n nodes -> matched keywords n = false) ->
  findAndTap_from h keywords nodes s = (Ok false, s).
Proof.
  induction nodes as [|n nodes IH]; intros Hall; [reflexivity|].
  cbn [findAndTap_from]. rewrite (Hall n (or_introl eq_refl)). cbn [negb].
  apply IH. intros m Hm. apply Hall. now right.
Qed.

(** The answer of a scan in which no tap throws. *)
Lemma findAndTap_from_answer (nodes : list node) (s : state) :
  (forall n, In n nodes -> matched keywords n = true ->
             exists b, tap_outcome h n = Ok b) ->
  fst (findAndTap_from h keywords nodes s)
  = Ok (existsb (fun n => matched keywords n
                          && match tap_outcome h n with
                             | Ok b => b
                             | Throw _ => false
                             end) nodes).
Proof.
  revert s. induction nodes as [|n nodes IH]; intros s Hall; [reflexivity|].
  assert (Hall' : forall m, In m nodes -> matched keywords m = true ->
                            exists b, tap_outcome h m = Ok b)
    by (intros m Hin; apply Hall; now right).
  cbn [findAndTap_from existsb]. destruct (matched keywords n) eqn:Hm; cbn [negb andb orb].
  - destruct (clickNode_run h n s) as (evs0 & Hrun & _).
    destruct (Hall n (or_introl eq_refl) Hm) as [b Hb].
    unfold bind at 1 2. rewrite Hrun, Hb. destruct b; cbn [orb].
    + reflexivity.
    + apply IH. exact Hall'.
  - apply IH. exact Hall'.
Qed.

End ScanFrame.

Section MoreScanAndLoop.

Context {rt : Runtime}.

(** X5: when no element of the snapshot matches a keyword (an empty
    snapshot included), the scan calls nothing on the host, changes nothing
    and returns false; the turn then goes to the throttled notifier and to
    sleep. *)
Theorem findAndTap_no_match (h : host) (keywords : list jsstring)
    (nodes : list node) (s : state) :
  Host.find h = Ok nodes ->
  (forall n, In n nodes -> matched keywords n = false) ->
  findAndTap h keywords s = (Ok false, s)
  /\ main_cycle keywords h s
     = (notifyThrottled h (lit "Skip helper: no matching button") ;;
        sleep CHECK_INTERVAL_MS) s.
Proof.
  intros Hfind Hall.
  assert (Hscan : findAndTap h keywords s = (Ok false, s)).
  { unfold findAndTap, bind, lift. rewrite Hfind.
    now apply findAndTap_from_unmatched. }
  split; [exact Hscan|]. now apply main_cycle_not_pressed.
Qed.

(** X6: when no tap throws, the scan returns true exactly when the snapshot
    holds a matching element that can be tapped, and false exactly when every
    matching element fails to be tapped. *)
Theorem findAndTap_finds_tappable (h : host) (keywords : list jsstring)
    (nodes : list node) (s : state) :
  Host.find h = Ok nodes ->
  (forall n, In n nodes -> matched keywords n = true ->
             exists b, tap_outcome h n = Ok b) ->
  (fst (findAndTap h keywords s) = Ok true
   <-> exists n, In n nodes /\ matched keywords n = true /\ tap_outcome h n = Ok true)
  /\ (fst (findAndTap h keywords s) = Ok false
      <-> forall n, In n nodes -> matched keywords n = true ->
                    tap_outcome h n = Ok false).
Proof.
  intros Hfind Hall.
  assert (Hfst : fst (findAndTap h keywords s)
                 = Ok (existsb (fun n => matched keywords n
                                         && match tap_outcome h n with
                                            | Ok b => b
                                            | Throw _ => false
                                            end) nodes)).
  { unfold findAndTap, bind, lift. rewrite Hfind.
    now apply findAndTap_from_answer. }
  rewrite Hfst. split.
  - split.
    + intros E. injection E as E. apply existsb_exists in E.
      destruct E as (n & Hin & E). apply andb_true_iff in E. destruct E as [Hm Ht].
      exists n. split; [exact Hin|]. split; [exact Hm|].
      destruct (tap_outcome h n) as [b|e]; [now subst | discriminate].
    + intros (n & Hin & Hm & Ht). f_equal. apply existsb_exists.
      exists n. split; [exact Hin|]. now rewrite Hm, Ht.
  - split.
    + intros E n Hin Hm. injection E as E.
      destruct (Hall n Hin Hm) as [b Hb]. rewrite Hb. destruct b; [|reflexivity].
      assert (Hex : existsb (fun n => matched keywords n
                                      && match tap_outcome h n with
                                         | Ok b => b
                                         | Throw _ => false
                                         end) nodes = true).
      { apply existsb_exists. exists n. split; [exact Hin|]. now rewrite Hm, Hb. }
      congruence.
    + intros Hfail. f_equal.
      destruct (existsb _ nodes) eqn:E; [|reflexivity].
      apply existsb_exists in E. destruct E as (n & Hin & E).
      apply andb_true_iff in E. destruct E as [Hm Ht].
      rewrite (Hfail n Hin Hm) in Ht. discriminate.
Qed.

(** X7: a tap that throws ends the scan at once: the elements after it are
    not tried, nothing is counted, and the turn logs the warning and goes to
    the throttled notifier.  (A tap that merely fails lets the scan go on.) *)
Theorem findAndTap_throw_ends_scan (h : host) (keywords : list jsstring)
    (pre : list node) (n : node) (post : list node) (e : exn) (s : state) :
  Host.find h = Ok (pre ++ n :: post) ->
  (forall m, In m pre -> matched keywords m = true -> tap_outcome h m = Ok false) ->
  matched keywords n = true ->
  tap_outcome h n = Throw e ->
  exists evs,
    clicked_nodes evs = filter (matched keywords) pre ++ [n]
    /\ findAndTap h keywords s = (Throw e, record_calls s evs)
    /\ main_cycle keywords h s
       = (log (lit "Warning: " ++ e) ;;
          notifyThrottled h (lit "Skip helper warning: " ++ e) ;;
          sleep CHECK_INTERVAL_MS) (record_calls s evs).
Proof.
  intros Hfind Hpre Hm Hn.
  destruct (findAndTap_from_passes h keywords pre (n :: post) s Hpre)
    as (evs1 & Hpass & Hc1).
  destruct (clickNode_run h n (record_calls s evs1)) as (evs2 & Hrun & Hc2).
  rewrite Hn in Hrun.
  exists (evs1 ++ evs2).
  assert (Hscan : findAndTap h keywords s = (Throw e, record_calls s (evs1 ++ evs2))).
  { unfold findAndTap, bind at 1, lift. rewrite Hfind, Hpass.
    cbn [findAndTap_from]. rewrite Hm. cbn [negb].
    unfold bind at 1. rewrite Hrun. now rewrite record_calls_app. }
  split; [now rewrite clicked_nodes_app, Hc1, Hc2|].
  split; [exact Hscan|]. now apply main_cycle_thrown.
Qed.

(** X8: the scan touches matching elements of the snapshot only: every
    [click()] it calls is on such an element, and every coordinate tap it
    issues is the fall-back tap at the centre of such an element. *)
Theorem findAndTap_touches_matches_only (h : host) (keywords : list jsstring)
    (nodes : list node) (s : state) :
  Host.find h = Ok nodes ->
  exists evs,
    trace (snd (findAndTap h keywords s)) = trace s ++ evs
    /\ Forall (fun n => In n nodes /\ matched keywords n = true) (clicked_nodes evs)
    /\ Forall (fun p => exists n, In n nodes /\ matched keywords n = true
                                  /\ fallback_of n p) (tapped_points evs).
Proof.
  intros Hfind. unfold findAndTap, bind, lift. rewrite Hfind.
  destruct (findAndTap_from_frame h keywords nodes s) as (r & evs & Hrest & Hc & Hp & _).
  exists evs. rewrite Hrest. auto.
Qed.

(** X9: a scan adds one to the tap counter when it returns true and nothing
    otherwise (when it returns false or throws), and it never changes the
    time stamp of the notifier. *)
Theorem findAndTap_counts_once (h : host) (keywords : list jsstring) (s : state) :
  taps (snd (findAndTap h keywords s))
  = taps s + counted (fst (findAndTap h keywords s))
  /\ lastToastAt (snd (findAndTap h keywords s)) = lastToastAt s.
Proof.
  destruct (findAndTap_frame h keywords s) as (r & evs & Hscan & _).
  rewrite Hscan. split; reflexivity.
Qed.

(** ** More on the loop *)

(** What one turn of the loop does to the state. *)
Lemma main_cycle_frame (keywords : list jsstring) (h : host) (s : state) :
  exists r evs toasts L,
    main_cycle keywords h s
    = (Ok tt, {| lastToastAt := L; taps := taps s + counted r;
                 trace := trace s ++ evs ++ toasts ++ [ev_sleep CHECK_INTERVAL_MS] |})
    /\ Forall (fun e => is_toast e = false /\ is_sleep e = false) evs
    /\ ((toasts = [] /\ L = lastToastAt s)
        \/ (exists m, toasts = [ev_toast m] /\ L = Host.getTime h
                      /\ TOAST_INTERVAL_MS <= Host.getTime h - lastToastAt s)).
Proof.
  destruct (findAndTap_frame h keywords s) as (r & evs & Hscan & Hq).
  destruct r as [[|]|e].
  - exists (Ok true), evs, [], (lastToastAt s).
    rewrite (main_cycle_pressed _ _ _ _ Hscan). unfold record_calls. simpl.
    rewrite <- app_assoc. auto.
  - exists (Ok false), evs.
    rewrite (main_cycle_not_pressed _ _ _ _ Hscan). unfold bind.
    destruct (Z_lt_le_dec (Host.getTime h - lastToastAt s) TOAST_INTERVAL_MS) as [Hlt|Hge].
    + exists [], (lastToastAt s).
      rewrite notifyThrottled_silent by exact Hlt.
      unfold sleep, emit. simpl. rewrite <- app_assoc. auto.
    + exists [ev_toast (lit "Skip helper: no matching button")], (Host.getTime h).
      rewrite notifyThrottled_shown by exact Hge.
      unfold sleep, emit. simpl. rewrite <- !app_assoc. simpl.
      split; [reflexivity|]. split; [exact Hq|]. right. eauto.
  - exists (Throw e), (evs ++ [ev_log (lit "Warning: " ++ e)]).
    assert (Hq' : Forall (fun e0 => is_toast e0 = false /\ is_sleep e0 = false)
                         (evs ++ [ev_log (lit "Warning: " ++ e)]))
      by (apply Forall_app; split; [exact Hq | repeat constructor]).
    rewrite (main_cycle_thrown _ _ _ _ _ Hscan). unfold bind, log, emit.
    destruct (Z_lt_le_dec (Host.getTime h - lastToastAt s) TOAST_INTERVAL_MS) as [Hlt|Hge].
    + exists [], (lastToastAt s).
      rewrite notifyThrottled_silent by exact Hlt.
      unfold sleep, emit. simpl. rewrite <- !app_assoc. auto.
    + exists [ev_toast (lit "Skip helper warning: " ++ e)], (Host.getTime h).
      rewrite notifyThrottled_shown by exact Hge.
      unfold sleep, emit. simpl. rewrite <- !app_assoc. simpl.
      split; [reflexivity|]. split; [exact Hq'|]. right. eauto.
Qed.

Lemma counted_range (r : result bool) : 0 <= counted r <= 1.
Proof. destruct r as [[|]|e]; simpl; lia. Qed.

(** X10: the tap counter never goes down, and a turn of the loop adds one
    to it at most: after any number of turns it has grown by no more than
    that number. *)
Theorem main_loop_taps_bound (keywords : list jsstring) (hs : list host) (s : state) :
  taps s <= taps (snd (main_loop keywords hs s))
         <= taps s + Z.of_nat (List.length hs).
Proof.
  revert s. induction hs as [|h hs IH]; intros s.
  - simpl. lia.
  - rewrite main_loop_cons.
    destruct (main_cycle_frame keywords h s) as (r & evs & toasts & L & Hc & _).
    specialize (IH (snd (main_cycle keywords h s))).
    rewrite Hc in IH |- *. cbn [snd taps] in IH |- *.
    pose proof (counted_range r). cbn [List.length]. lia.
Qed.

(** X11: every turn of the loop sleeps once, for [CHECK_INTERVAL_MS], and
    nothing else sleeps: the sleeps of a run are one per turn. *)
Theorem main_loop_one_sleep_per_turn (keywords : list jsstring)
    (hs : list host) (s : state) :
  filter is_sleep (trace (snd (main_loop keywords hs s)))
  = filter is_sleep (trace s)
    ++ repeat (ev_sleep CHECK_INTERVAL_MS) (List.length hs).
Proof.
  revert s. induction hs as [|h hs IH]; intros s.
  - simpl. now rewrite app_nil_r.
  - rewrite main_loop_cons, IH.
    destruct (main_cycle_frame keywords h s)
      as (r & evs & toasts & L & Hc & Hq & Ht).
    rewrite Hc. cbn [snd trace List.length repeat].
    rewrite !filter_app. rewrite (proj2 (filter_is_toast_none evs Hq)).
    assert (Hts : filter is_sleep toasts = [])
      by (destruct Ht as [[-> _] | (m & -> & _)]; reflexivity).
    rewrite Hts. simpl. now rewrite <- app_assoc.
Qed.

(** X12: the loop shows a toast of its own at most once per turn, and each
    one moves the time stamp forward by the throttle interval at least: the
    toasts shown during a run, times the interval, fit between the time
    stamp before and the time stamp after, which is the clock of one of the
    turns when it changed. *)
Theorem main_loop_toast_rate (keywords : list jsstring) (hs : list host) (s : state) :
  let s' := snd (main_loop keywords hs s) in
  let shown := toasts_in (trace s') - toasts_in (trace s) in
  0 <= shown <= Z.of_nat (List.length hs)
  /\ TOAST_INTERVAL_MS * shown <= lastToastAt s' - lastToastAt s
  /\ (lastToastAt s' = lastToastAt s
      \/ exists h, In h hs /\ lastToastAt s' = Host.getTime h).
Proof.
  revert s. induction hs as [|h hs IH]; intros s.
  - cbv zeta. cbn [main_loop ret snd List.length]. unfold TOAST_INTERVAL_MS.
    split; [lia|]. split; [lia|]. now left.
  - cbv zeta in IH |- *. rewrite main_loop_cons.
    destruct (main_cycle_frame keywords h s)
      as (r & evs & toasts & L & Hc & Hq & Ht).
    specialize (IH (snd (main_cycle keywords h s))).
    rewrite Hc in IH |- *. cbn [snd trace lastToastAt] in IH |- *.
    destruct IH as (Hrange & Hrate & Hlast).
    assert (Hcount : toasts_in (trace s ++ evs ++ toasts ++ [ev_sleep CHECK_INTERVAL_MS])
                     = toasts_in (trace s) + toasts_in toasts).
    { unfold toasts_in. rewrite !filter_app, !length_app.
      rewrite (proj1 (filter_is_toast_none evs Hq)). simpl. lia. }
    rewrite Hcount in Hrange, Hrate.
    unfold TOAST_INTERVAL_MS in *. cbn [List.length].
    destruct Ht as [[-> ->] | (m & -> & -> & Hge)].
    + change (toasts_in []) with 0 in *.
      split; [lia|]. split; [lia|].
      destruct Hlast as [Hl | (h' & Hin & Hl)]; [now left|].
      right. exists h'. split; [now right | exact Hl].
    + change (toasts_in [ev_toast m]) with 1 in *.
      split; [lia|]. split; [lia|].
      right. destruct Hlast as [Hl | (h' & Hin & Hl)].
      * exists h. split; [now left | exact Hl].
      * exists h'. split; [now right | exact Hl].
Qed.

End MoreScanAndLoop.

(** ** The further properties on the screens of the examples *)

Lemma findAndTap_no_match_witness :
  let keywords := normalizeKeywords DEFAULT_KEYWORDS in
  let ok_button :=
    {| UiObject.text := Some (lit "OK"); UiObject.desc := None;
       UiObject.id := Some (lit "android:id/button1");
       UiObject.click := Ok true; UiObject.bounds := Ok None |} in
  let h := screen [ok_button] 1700000000000 in
  findAndTap h keywords initial = (Ok false, initial)
  /\ main_cycle keywords h initial
     = (Ok tt, {| lastToastAt := 1700000000000; taps := 0;
                  trace := [ev_toast (lit "Skip helper: no matching button");
                            ev_sleep 800] |}).
Proof.
  intros keywords ok_button h.
  assert (Hall : forall n, In n [ok_button] -> matched keywords n = false)
    by (intros n [<- | []]; reflexivity).
  destruct (findAndTap_no_match h keywords [ok_button] initial eq_refl Hall) as [Hscan Hcycle].
  split; [exact Hscan|]. rewrite Hcycle. reflexivity.
Defined.

Lemma findAndTap_finds_tappable_witness :
  let keywords := normalizeKeywords DEFAULT_KEYWORDS in
  let h := screen [close_dead; skip_by_tap] 1700000000000 in
  fst (findAndTap h keywords initial) = Ok true
  /\ exists n, In n [close_dead; skip_by_tap]
               /\ matched keywords n = true /\ tap_outcome h n = Ok true.
Proof.
  intros keywords h.
  assert (Hall : forall n, In n [close_dead; skip_by_tap] -> matched keywords n = true ->
                           exists b, tap_outcome h n = Ok b).
  { intros n [<- | [<- | []]] _; [now exists false | now exists true]. }
  destruct (findAndTap_finds_tappable h keywords [close_dead; skip_by_tap] initial eq_refl Hall) as [Htrue _].
  assert (H : fst (findAndTap h keywords initial) = Ok true) by reflexivity.
  split; [exact H|]. exact (proj1 Htrue H).
Defined.

Lemma findAndTap_throw_ends_scan_witness :
  let keywords := normalizeKeywords DEFAULT_KEYWORDS in
  let stale :=
    {| UiObject.text := Some (lit "Skip"); UiObject.desc := None;
       UiObject.id := None;
       UiObject.click := Throw (lit "IllegalStateException: node is recycled");
       UiObject.bounds := Ok None |} in
  let h := screen [close_dead; stale; skip_by_click] 1700000000000 in
  exists evs,
    clicked_nodes evs = [close_dead; stale]
    /\ findAndTap h keywords initial
       = (Throw (lit "IllegalStateException: node is recycled"),
          record_calls initial evs).
Proof.
  intros keywords stale h.
  assert (Hpre : forall m, In m [close_dead] -> matched keywords m = true ->
                           tap_outcome h m = Ok false)
    by (intros m [<- | []] _; reflexivity).
  destruct (findAndTap_throw_ends_scan h keywords [close_dead] stale [skip_by_click]
              (lit "IllegalStateException: node is recycled") initial
              eq_refl Hpre eq_refl eq_refl) as (evs & Hc & Hscan & _).
  exists evs. split; [exact Hc | exact Hscan].
Defined.

Lemma findAndTap_touches_matches_only_witness :
  let keywords := normalizeKeywords DEFAULT_KEYWORDS in
  let nodes := [close_dead; skip_by_tap; skip_by_click] in
  let h := screen nodes 1700000000000 in
  exists evs,
    trace (snd (findAndTap h keywords initial)) = trace initial ++ evs
    /\ Forall (fun n => In n nodes /\ matched keywords n = true) (clicked_nodes evs)
    /\ Forall (fun p => exists n, In n nodes /\ matched keywords n = true
                                  /\ fallback_of n p) (tapped_points evs).
Proof.
  intros keywords nodes h.
  exact (findAndTap_touches_matches_only h keywords nodes initial eq_refl).
Defined.
